(** * The [Actions] barrel module of Review Board's front end

    Source: [reviewboard/static/rb/js/common/actions/index.ts].

    The module imports four bindings from four sibling modules and exports
    one constant, [Actions], an object literal with four shorthand
    properties.  This file embeds the module as a computation in a small
    state-and-error monad over a JavaScript-like host (a heap of objects
    with ordered own properties, a module loader for the siblings) and
    states the properties of the module against that embedding. *)

From Stdlib Require Import NArith Strings.Ascii Sorting.Sorted.
From stdpp Require Import gmap strings list fin_maps.

Local Open Scope string_scope.

(** ** Values, objects and the heap *)

(** Heap addresses.  Two references are the same reference exactly when
    their addresses are equal. *)
Definition loc := positive.

(** The values a binding can hold.  Objects, functions and classes live in
    the heap and are held by reference.  The module never looks inside a
    value, so the primitives it could not tell apart anyway (numbers,
    symbols) are left out. *)
Inductive Value : Type :=
| VUndefined
| VNull
| VBool (b : bool)
| VString (s : string)
| VRef (l : loc).

#[global] Instance Value_eq_dec : EqDecision Value.
Proof. solve_decision. Defined.

(** An object is the sequence of its own data properties, in the order in
    which its keys are listed: array indices first, in numeric order, then
    the other keys in the order in which they were defined. *)
Definition Obj := list (string * Value).

(** What a failed computation carries. *)
Inductive Error : Type :=
| CannotResolve (specifier : string)
| InitFailed (specifier : string) (thrown : Value)
| NoSuchExport (specifier name : string)
| TypeError (what : string).

#[global] Instance Error_eq_dec : EqDecision Error.
Proof. solve_decision. Defined.

(** The host: the object heap, and the import requests made so far, in the
    order in which they were made. *)
Record Host : Type := mkHost {
  heap : gmap loc Obj;
  requested : list (string * string)
}.

(** ** Own properties *)

(** [o.k], own properties only. *)
Fixpoint own_property (k : string) (o : Obj) : option Value :=
  match o with
  | [] => None
  | (k', v) :: o' => if decide (k = k') then Some v else own_property k o'
  end.

(** [Object.keys(o)]. *)
Definition own_keys (o : Obj) : list string := o.*1.

(** The array index a key denotes, if it is one: a decimal numeral without
    a leading zero, below [2^32 - 1].  Such keys are listed before all
    others, in numeric order. *)
Definition digit_value (c : ascii) : option N :=
  let n := N_of_ascii c in
  if bool_decide (48 ≤ n ∧ n ≤ 57)%N then Some (n - 48)%N else None.

Fixpoint decimal_value (acc : N) (k : string) : option N :=
  match k with
  | EmptyString => Some acc
  | String c k' =>
      match digit_value c with
      | Some d => decimal_value (acc * 10 + d)%N k'
      | None => None
      end
  end.

Definition array_index (k : string) : option N :=
  match k with
  | EmptyString => None
  | String c k' =>
      if bool_decide (c = "0"%char ∧ k' ≠ EmptyString) then None
      else
        match decimal_value 0 k with
        | Some n => if bool_decide (n < 4294967295)%N then Some n else None
        | None => None
        end
  end.

(** Giving the existing property [k] of [o] the value [v]: the property
    keeps its place. *)
Fixpoint replace_property (k : string) (v : Value) (o : Obj) : Obj :=
  match o with
  | [] => []
  | (k', v') :: o' =>
      if decide (k = k') then (k, v) :: o'
      else (k', v') :: replace_property k v o'
  end.

(** Adding the new property [k], whose array index is [n], to [o]: it goes
    after the array indices below [n] and before everything else. *)
Fixpoint insert_indexed (n : N) (k : string) (v : Value) (o : Obj) : Obj :=
  match o with
  | [] => [(k, v)]
  | (k', v') :: o' =>
      match array_index k' with
      | Some n' =>
          if bool_decide (n' < n)%N then (k', v') :: insert_indexed n k v o'
          else (k, v) :: o
      | None => (k, v) :: o
      end
  end.

(** Defining the data property [k] on [o]: an existing property keeps its
    place and takes the new value; a new one goes last, unless its key is
    an array index, which goes among the array indices. *)
Definition define_property (k : string) (v : Value) (o : Obj) : Obj :=
  if decide (k ∈ own_keys o) then replace_property k v o
  else
    match array_index k with
    | Some n => insert_indexed n k v o
    | None => (o ++ [(k, v)])%list
    end.

(** The object an object literal [{ k1: v1, ..., kn: vn }] denotes: start
    from the empty object and define the properties from left to right. *)
Definition object_literal (props : list (string * Value)) : Obj :=
  foldl (fun o kv => define_property kv.1 kv.2 o) [] props.

(** ** Computations *)

Definition M (A : Type) : Type := Host → Host * (Error + A).

Definition ret {A} (a : A) : M A := fun s => (s, inr a).

Definition throw {A} (e : Error) : M A := fun s => (s, inl e).

Definition bind {A B} (c : M A) (k : A → M B) : M B :=
  fun s =>
    match c s with
    | (s', inl e) => (s', inl e)
    | (s', inr a) => k a s'
    end.

Notation "'let!' x ':=' c 'in' k" := (bind c (fun x => k))
  (at level 10, x name, c at level 100, k at level 200).

(** Whether a result is a failure. *)
Definition failed {A} (r : Error + A) : bool :=
  match r with inl _ => true | inr _ => false end.

(** Allocation of a new object at an address the heap does not use. *)
Definition alloc (o : Obj) : M Value :=
  fun s =>
    let l := fresh (dom (heap s)) in
    (mkHost (<[l := o]> (heap s)) (requested s), inr (VRef l)).

(** Evaluation of an object literal: a new object each time. *)
Definition new_object (props : list (string * Value)) : M Value :=
  alloc (object_literal props).

(** Reading [obj.k].  A missing own property reads as [undefined], as it
    does on a primitive for the keys used here; reading from [undefined] or
    [null] fails.  Inherited properties are not modelled. *)
Definition get_property (obj : Value) (k : string) : M Value :=
  fun s =>
    match obj with
    | VRef l =>
        match heap s !! l with
        | Some o => (s, inr (default VUndefined (own_property k o)))
        | None => (s, inl (TypeError "no such object"))
        end
    | VUndefined | VNull => (s, inl (TypeError "cannot read properties"))
    | VBool _ | VString _ => (s, inr VUndefined)
    end.

(** [Object.keys(obj)]. *)
Definition get_keys (obj : Value) : M (list string) :=
  fun s =>
    match obj with
    | VRef l =>
        match heap s !! l with
        | Some o => (s, inr (own_keys o))
        | None => (s, inl (TypeError "no such object"))
        end
    | VUndefined | VNull => (s, inl (TypeError "cannot convert to object"))
    | VBool _ | VString _ => (s, inr [])
    end.

(** An assignment [obj.k = v], which the host language offers on every
    ordinary object.  It is no part of the module.  The key [__proto__] is
    taken by a setter every ordinary object inherits, so assigning to it
    defines no own property; assigning to a property of a primitive fails,
    as the module's code is strict. *)
Definition set_property (obj : Value) (k : string) (v : Value) : M unit :=
  fun s =>
    match obj with
    | VRef l =>
        match heap s !! l with
        | Some o =>
            if decide (k = "__proto__") then (s, inr ())
            else
              (mkHost (<[l := define_property k v o]> (heap s)) (requested s),
               inr ())
        | None => (s, inl (TypeError "no such object"))
        end
    | VUndefined | VNull => (s, inl (TypeError "cannot set properties"))
    | VBool _ | VString _ =>
        (s, inl (TypeError "cannot create property on a primitive"))
    end.

(** ** The module *)

(** The object literal of lines 7 to 12, as a function of the four
    bindings it mentions.  Each property is a shorthand: the key is the
    binding's name and the value is the binding's value. *)
Definition Actions (Action MenuAction ActionView MenuActionView : Value)
  : list (string * Value) :=
  [ ("Action", Action);
    ("ActionView", ActionView);
    ("MenuAction", MenuAction);
    ("MenuActionView", MenuActionView) ].

(** The module's own top-level code: [export const Actions = { ... }].
    The result is the module's exports. *)
Definition module_body (Action MenuAction ActionView MenuActionView : Value)
  : M (gmap string Value) :=
  let! obj := new_object (Actions Action MenuAction ActionView MenuActionView) in
  ret {[ "Actions" := obj ]}.

(** ** The sibling modules *)

(** A sibling module, as the host presents it once it is resolved: the
    names it exports, which are known before it runs, and its
    initialisation, which runs from a heap, may allocate, and either throws
    or leaves every exported binding with a value. *)
Record Sibling : Type := mkSibling {
  declared : list string;
  evaluate : gmap loc Obj → gmap loc Obj * (Error + (string → Value))
}.

Section Index.

(** The host's resolution of a specifier: the sibling, or the failure to
    resolve it. *)
Variable load : string → Error + Sibling.

(** Loading: the host is asked for the module an import statement names. *)
Definition resolve_import (specifier name : string) : M Sibling :=
  fun s =>
    let s' := mkHost (heap s) (requested s ++ [(specifier, name)])%list in
    match load specifier with
    | inl e => (s', inl e)
    | inr sibling => (s', inr sibling)
    end.

(** Linking: the name an import statement asks for must be one the sibling
    exports. *)
Definition link_import (sibling : Sibling) (specifier name : string)
  : M unit :=
  if decide (name ∈ declared sibling) then ret ()
  else throw (NoSuchExport specifier name).

(** Evaluation: the sibling runs, and the import binding holds the value of
    the sibling's export. *)
Definition evaluate_import (sibling : Sibling) (name : string) : M Value :=
  fun s =>
    match evaluate sibling (heap s) with
    | (h', inl e) => (mkHost h' (requested s), inl e)
    | (h', inr values) => (mkHost h' (requested s), inr (values name))
    end.

(** The module once it is linked: the siblings run in the order of the
    import statements, then the body runs. *)
Definition evaluate_index (action menuAction actionView menuActionView : Sibling)
  : M (gmap string Value) :=
  let! Action := evaluate_import action "Action" in
  let! MenuAction := evaluate_import menuAction "MenuAction" in
  let! ActionView := evaluate_import actionView "ActionView" in
  let! MenuActionView := evaluate_import menuActionView "MenuActionView" in
  module_body Action MenuAction ActionView MenuActionView.

(** The module once its siblings are resolved: the four imported names are
    checked, in the order of the import statements, before anything
    runs. *)
Definition link_index (action menuAction actionView menuActionView : Sibling)
  : M (gmap string Value) :=
  let! ok1 := link_import action "./models/action" "Action" in
  let! ok2 := link_import menuAction "./models/menuAction" "MenuAction" in
  let! ok3 := link_import actionView "./views/actionView" "ActionView" in
  let! ok4 := link_import menuActionView "./views/menuActionView" "MenuActionView" in
  evaluate_index action menuAction actionView menuActionView.

(** The whole module.  Its four import statements are static, so all four
    siblings are resolved, then all four names are checked, and only then
    do the siblings and the body run. *)
Definition module_init : M (gmap string Value) :=
  let! action := resolve_import "./models/action" "Action" in
  let! menuAction := resolve_import "./models/menuAction" "MenuAction" in
  let! actionView := resolve_import "./views/actionView" "ActionView" in
  let! menuActionView := resolve_import "./views/menuActionView" "MenuActionView" in
  link_index action menuAction actionView menuActionView.

(** *** The module record

    The host runs a module's top-level code at most once and keeps the
    outcome; a later import gets the kept outcome. *)
Inductive Status : Type :=
| Uninitialized
| Initialized (exports : gmap string Value)
| Errored (e : Error).

Record World : Type := mkWorld {
  host : Host;
  status : Status
}.

Definition import_index (w : World) : World * (Error + gmap string Value) :=
  match status w with
  | Initialized exports => (w, inr exports)
  | Errored e => (w, inl e)
  | Uninitialized =>
      match module_init (host w) with
      | (s', inl e) => (mkWorld s' (Errored e), inl e)
      | (s', inr exports) => (mkWorld s' (Initialized exports), inr exports)
      end
  end.

(** *** What a consumer can do with the module

    A consumer imports [Actions] and then reads the binding itself, one of
    its properties, or its keys.  The module offers nothing else. *)
Inductive Op : Type :=
| ReadBinding
| ReadProperty (key : string)
| ReadKeys.

Inductive Obs : Type :=
| Binding (v : option Value)
| Property (r : Error + Value)
| Keys (r : Error + list string)
| LoadFailure (e : Error).

Definition observe (op : Op) (w : World) : World * Obs :=
  match import_index w with
  | (w', inl e) => (w', LoadFailure e)
  | (w', inr exports) =>
      let binding := exports !! "Actions" in
      match op with
      | ReadBinding => (w', Binding binding)
      | ReadProperty k =>
          match get_property (default VUndefined binding) k (host w') with
          | (s', r) => (mkWorld s' (status w'), Property r)
          end
      | ReadKeys =>
          match get_keys (default VUndefined binding) (host w') with
          | (s', r) => (mkWorld s' (status w'), Keys r)
          end
      end
  end.

(** A consumer's session: the final world and what each step observed. *)
Fixpoint run (ops : list Op) (w : World) : World * list Obs :=
  match ops with
  | [] => (w, [])
  | op :: ops' =>
      match observe op w with
      | (w', o) =>
          match run ops' w' with
          | (w'', os) => (w'', o :: os)
          end
      end
  end.

(** *** The siblings, as the module sees them *)

(** The sibling at [specifier] resolves and exports [name]; run from heap
    [h] it leaves heap [h'] and the export has the value [v]. *)
Definition exports_value (specifier name : string)
    (h h' : gmap loc Obj) (v : Value) : Prop :=
  ∃ sibling values,
    load specifier = inr sibling ∧
    name ∈ declared sibling ∧
    evaluate sibling h = (h', inr values) ∧
    values name = v.

(** The four siblings load one after the other from heap [h], leave heap
    [h'] and export the four values. *)
Definition siblings_export (h : gmap loc Obj)
    (Action MenuAction ActionView MenuActionView : Value)
    (h' : gmap loc Obj) : Prop :=
  ∃ h1 h2 h3,
    exports_value "./models/action" "Action" h h1 Action ∧
    exports_value "./models/menuAction" "MenuAction" h1 h2 MenuAction ∧
    exports_value "./views/actionView" "ActionView" h2 h3 ActionView ∧
    exports_value "./views/menuActionView" "MenuActionView" h3 h' MenuActionView.

(** The siblings the given specifiers resolve to, or the error of the
    first, in the order given, that cannot be resolved. *)
Fixpoint resolve_all (specifiers : list string) : Error + list Sibling :=
  match specifiers with
  | [] => inr []
  | p :: ps =>
      match load p with
      | inl e => inl e
      | inr sibling =>
          match resolve_all ps with
          | inl e => inl e
          | inr siblings => inr (sibling :: siblings)
          end
      end
  end.

End Index.

(** The specifiers of the four import statements, in source order. *)
Definition index_specifiers : list string :=
  [ "./models/action"; "./models/menuAction";
    "./views/actionView"; "./views/menuActionView" ].

(** The four import statements, in source order: specifier and name. *)
Definition index_requests : list (string * string) :=
  [ ("./models/action", "Action");
    ("./models/menuAction", "MenuAction");
    ("./views/actionView", "ActionView");
    ("./views/menuActionView", "MenuActionView") ].

(** *** How initialisation is expected to fail

    These definitions say, kind of failure by kind of failure, which error
    initialisation is expected to end with, if any. *)

(** The error for the first request, in the order given, whose sibling
    does not export the name asked for. *)
Fixpoint first_missing (siblings : list Sibling)
    (requests : list (string * string)) : option Error :=
  match siblings, requests with
  | sibling :: siblings', (p, n) :: requests' =>
      if decide (n ∈ declared sibling) then first_missing siblings' requests'
      else Some (NoSuchExport p n)
  | _, _ => None
  end.

(** The error of the first sibling, in the order given, whose
    initialisation fails when the siblings run one after the other from
    heap [h]; [None] when all of them complete. *)
Fixpoint first_failure (siblings : list Sibling) (h : gmap loc Obj)
  : option Error :=
  match siblings with
  | [] => None
  | sibling :: siblings' =>
      match evaluate sibling h with
      | (_, inl e) => Some e
      | (h', inr _) => first_failure siblings' h'
      end
  end.

(** The heap after the given siblings have run one after the other from
    heap [h]. *)
Fixpoint heap_after (siblings : list Sibling) (h : gmap loc Obj)
  : gmap loc Obj :=
  match siblings with
  | [] => h
  | sibling :: siblings' => heap_after siblings' (evaluate sibling h).1
  end.


(** ** Using a value as a function *)

Section Calls.

(** The host's two ways of applying a value: [new f(args)], and
    [f(args)] with a receiver. *)
Variable construct : Value → list Value → M Value.
Variable call : Value → Value → list Value → M Value.

(** [new obj.k(args)]. *)
Definition new_member (obj : Value) (k : string) (args : list Value)
  : M Value :=
  let! f := get_property obj k in
  construct f args.

(** [obj.k(args)]: the receiver of the call is [obj]. *)
Definition call_member (obj : Value) (k : string) (args : list Value)
  : M Value :=
  let! f := get_property obj k in
  call f obj args.

(** [new f(args)] on a binding [f]. *)
Definition new_direct (f : Value) (args : list Value) : M Value :=
  construct f args.

(** [f(args)] on a binding [f]: the receiver is [undefined]. *)
Definition call_direct (f : Value) (args : list Value) : M Value :=
  call f VUndefined args.

(** [f] behaves the same whatever receiver it is called with.  A class is
    such a value: calling it without [new] fails before the receiver is
    looked at. *)
Definition ignores_receiver (f : Value) : Prop :=
  ∀ this1 this2 args s, call f this1 args s = call f this2 args s.

End Calls.

(** ** Sample hosts *)

(** A sibling that exports one name with a fixed value and allocates
    nothing. *)
Definition constant_sibling (name : string) (v : Value) : Sibling :=
  mkSibling [name] (fun h => (h, inr (fun _ => v))).

(** Siblings that export marker strings in place of classes. *)
Definition marker_load (specifier : string) : Error + Sibling :=
  if decide (specifier = "./models/action")
  then inr (constant_sibling "Action" (VString "ACTION_MARKER"))
  else if decide (specifier = "./models/menuAction")
  then inr (constant_sibling "MenuAction" (VString "MENUACTION_MARKER"))
  else if decide (specifier = "./views/actionView")
  then inr (constant_sibling "ActionView" (VString "ACTIONVIEW_MARKER"))
  else if decide (specifier = "./views/menuActionView")
  then inr (constant_sibling "MenuActionView" (VString "MENUACTIONVIEW_MARKER"))
  else inl (CannotResolve specifier).

(** Siblings that each allocate one class object, which records its name,
    and export a reference to it under that name. *)
Definition class_name (specifier : string) : option string :=
  if decide (specifier = "./models/action") then Some "Action"
  else if decide (specifier = "./models/menuAction") then Some "MenuAction"
  else if decide (specifier = "./views/actionView") then Some "ActionView"
  else if decide (specifier = "./views/menuActionView") then Some "MenuActionView"
  else None.

Definition class_sibling (name : string) : Sibling :=
  mkSibling [name]
    (fun h =>
       let l := fresh (dom h) in
       (<[l := [("name", VString name)]]> h, inr (fun _ => VRef l))).

Definition class_load (specifier : string) : Error + Sibling :=
  match class_name specifier with
  | Some name => inr (class_sibling name)
  | None => inl (CannotResolve specifier)
  end.

(** A sibling that exports [name] and throws while it initialises. *)
Definition throwing_sibling (specifier name : string) : Sibling :=
  mkSibling [name] (fun h => (h, inl (InitFailed specifier (VString "boom")))).

(** As [class_load], but the menu model throws while it initialises. *)
Definition broken_load (specifier : string) : Error + Sibling :=
  if decide (specifier = "./models/menuAction")
  then inr (throwing_sibling specifier "MenuAction")
  else class_load specifier.

(** As [class_load], but the base model resolves and runs without
    exporting anything. *)
Definition nameless_load (specifier : string) : Error + Sibling :=
  if decide (specifier = "./models/action")
  then inr (mkSibling [] (fun h => (h, inr (fun _ => VUndefined))))
  else class_load specifier.

(** As [class_load], but the base model throws while it initialises and
    the base view cannot be resolved. *)
Definition tangled_load (specifier : string) : Error + Sibling :=
  if decide (specifier = "./models/action")
  then inr (throwing_sibling specifier "Action")
  else if decide (specifier = "./views/actionView")
  then inl (CannotResolve specifier)
  else class_load specifier.

(** The host before anything is loaded. *)
Definition empty_host : Host := mkHost ∅ [].

(** A host in which classes can be instantiated but not called: [new]
    allocates an instance that records its class and its first argument,
    a call fails whatever the receiver. *)
Definition class_construct (f : Value) (args : list Value) : M Value :=
  match f with
  | VRef _ =>
      new_object [("constructor", f);
                  ("attributes", default VUndefined (head args))]
  | _ => throw (TypeError "not a constructor")
  end.

Definition class_call (f this : Value) (args : list Value) : M Value :=
  throw (TypeError "class constructors must be invoked with new").

(** A host with an old-style function that returns its receiver. *)
Definition this_call (f this : Value) (args : list Value) : M Value :=
  ret this.

(** Siblings that load and export [undefined] under each name. *)
Definition undefined_load (specifier : string) : Error + Sibling :=
  match class_name specifier with
  | Some name => inr (constant_sibling name VUndefined)
  | None => inl (CannotResolve specifier)
  end.

(** The final host and the exports of the module when its siblings export
    the marker strings. *)
Definition marker_Actions : Obj :=
  [ ("Action", VString "ACTION_MARKER");
    ("ActionView", VString "ACTIONVIEW_MARKER");
    ("MenuAction", VString "MENUACTION_MARKER");
    ("MenuActionView", VString "MENUACTIONVIEW_MARKER") ].

Definition marker_final : Host :=
  mkHost {[ 1%positive := marker_Actions ]} index_requests.

Definition marker_index_exports : gmap string Value :=
  {[ "Actions" := VRef 1%positive ]}.

(** The heap the four class siblings leave behind. *)
Definition class_heap : gmap loc Obj :=
  {[ 1%positive := [("name", VString "Action")];
     2%positive := [("name", VString "MenuAction")];
     3%positive := [("name", VString "ActionView")];
     4%positive := [("name", VString "MenuActionView")] ]}.

(** A host that already holds an object and has already served a request. *)
Definition busy_host : Host :=
  mkHost {[ 1%positive := [("x", VNull)] ]} [("./other", "Other")].

(** A value is live in a heap when it is a primitive or refers to an
    object the heap holds.  A running program holds live values only. *)
Definition live (h : gmap loc Obj) (v : Value) : Prop :=
  match v with
  | VRef l => l ∈ dom h
  | _ => True
  end.

(** The four keys of the literal, in source order. *)
Definition Actions_keys : list string :=
  [ "Action"; "ActionView"; "MenuAction"; "MenuActionView" ].

(** ** Basic facts *)

Lemma object_literal_Actions (a m av mv : Value) :
  object_literal (Actions a m av mv) = Actions a m av mv.
Proof. reflexivity. Qed.

Lemma module_body_eq (a m av mv : Value) (s : Host) :
  module_body a m av mv s =
    (mkHost (<[fresh (dom (heap s)) := Actions a m av mv]> (heap s))
            (requested s),
     inr {[ "Actions" := VRef (fresh (dom (heap s))) ]}).
Proof. reflexivity. Qed.

Section IndexFacts.

Variable load : string → Error + Sibling.

Lemma module_init_success (s : Host) (a m av mv : Value)
    (h' : gmap loc Obj) :
  siblings_export load (heap s) a m av mv h' →
  module_init load s =
    module_body a m av mv (mkHost h' (requested s ++ index_requests)).
Proof.
  intros (h1 & h2 & h3 & (s1 & v1 & R1 & D1 & E1 & <-)
          & (s2 & v2 & R2 & D2 & E2 & <-) & (s3 & v3 & R3 & D3 & E3 & <-)
          & (s4 & v4 & R4 & D4 & E4 & <-)).
  unfold module_init, bind, resolve_import. rewrite R1, R2, R3, R4.
  unfold link_index, bind, link_import, ret.
  rewrite !decide_True by done.
  unfold evaluate_index, bind, evaluate_import. cbn [heap requested].
  rewrite E1. cbn [heap requested]. rewrite E2. cbn [heap requested].
  rewrite E3. cbn [heap requested]. rewrite E4. cbn [heap requested].
  by rewrite <- !(assoc_L (++)).
Qed.

Lemma module_init_inr (s s' : Host) (exports : gmap string Value) :
  module_init load s = (s', inr exports) →
  ∃ a m av mv h',
    siblings_export load (heap s) a m av mv h' ∧
    module_body a m av mv (mkHost h' (requested s ++ index_requests))
      = (s', inr exports).
Proof.
  unfold module_init, bind, resolve_import. cbn [heap requested].
  destruct (load "./models/action") as [? | s1] eqn:R1; [discriminate |].
  destruct (load "./models/menuAction") as [? | s2] eqn:R2; [discriminate |].
  destruct (load "./views/actionView") as [? | s3] eqn:R3; [discriminate |].
  destruct (load "./views/menuActionView") as [? | s4] eqn:R4; [discriminate |].
  unfold link_index, bind, link_import, ret, throw.
  destruct (decide ("Action" ∈ declared s1)) as [D1 |]; [| discriminate].
  destruct (decide ("MenuAction" ∈ declared s2)) as [D2 |]; [| discriminate].
  destruct (decide ("ActionView" ∈ declared s3)) as [D3 |]; [| discriminate].
  destruct (decide ("MenuActionView" ∈ declared s4)) as [D4 |]; [| discriminate].
  unfold evaluate_index, bind, evaluate_import. cbn [heap requested].
  destruct (evaluate s1 (heap s)) as [h1 [? | v1]] eqn:E1; [discriminate |].
  cbn [heap requested].
  destruct (evaluate s2 h1) as [h2 [? | v2]] eqn:E2; [discriminate |].
  cbn [heap requested].
  destruct (evaluate s3 h2) as [h3 [? | v3]] eqn:E3; [discriminate |].
  cbn [heap requested].
  destruct (evaluate s4 h3) as [h4 [? | v4]] eqn:E4; [discriminate |].
  cbn [heap requested].
  intros Hbody.
  exists (v1 "Action"), (v2 "MenuAction"), (v3 "ActionView"),
    (v4 "MenuActionView"), h4.
  split.
  - exists h1, h2, h3. unfold exports_value. naive_solver.
  - rewrite <- Hbody. by rewrite <- !(assoc_L (++)).
Qed.

End IndexFacts.

Lemma module_init_result
    (load : string → Error + Sibling)
    (s s' : Host) (exports : gmap string Value) :
  module_init load s = (s', inr exports) →
  ∃ a m av mv h' l,
    siblings_export load (heap s) a m av mv h' ∧
    l = fresh (dom h') ∧
    h' !! l = None ∧
    exports = {[ "Actions" := VRef l ]} ∧
    heap s' = <[l := Actions a m av mv]> h' ∧
    requested s' = (requested s ++ index_requests)%list.
Proof.
  intros (a & m & av & mv & h' & Hsib & Hbody)%module_init_inr.
  rewrite module_body_eq in Hbody. cbn in Hbody.
  injection Hbody as <- <-.
  exists a, m, av, mv, h', (fresh (dom h')). repeat split; try done.
  apply not_elem_of_dom, is_fresh.
Qed.

Lemma own_property_is_Some (k : string) (o : Obj) :
  is_Some (own_property k o) ↔ k ∈ own_keys o.
Proof.
  unfold own_keys. induction o as [| [k' v] o IH]; cbn.
  - split; [intros [? [=]] | intros ?%elem_of_nil; done].
  - rewrite elem_of_cons. destruct (decide (k = k')) as [-> | Hne].
    + split; eauto.
    + rewrite IH. split; [by right | by intros [? | ?]].
Qed.

Lemma marker_run :
  module_init marker_load empty_host = (marker_final, inr marker_index_exports).
Proof. vm_compute. reflexivity. Qed.

(** ** The keys of [Actions] *)

(** C1.  When the module initialises, the exported [Actions] is an object
    whose own keys are exactly [Action], [ActionView], [MenuAction] and
    [MenuActionView]: four keys, none twice, a key is present if and only
    if it is one of the four, and the set of keys is the set of names the
    module asked its siblings for. *)
Theorem Actions_keys_complete
    (load : string → Error + Sibling)
    (s s' : Host) (exports : gmap string Value) :
  module_init load s = (s', inr exports) →
  ∃ l o,
    exports !! "Actions" = Some (VRef l) ∧
    heap s' !! l = Some o ∧
    own_keys o = ["Action"; "ActionView"; "MenuAction"; "MenuActionView"] ∧
    NoDup (own_keys o) ∧
    (∀ k, is_Some (own_property k o) ↔
          k ∈ ["Action"; "ActionView"; "MenuAction"; "MenuActionView"]) ∧
    (list_to_set (own_keys o) : gset string) =
      list_to_set (drop (length (requested s)) (requested s')).*2.
Proof.
  intros (a & m & av & mv & h' & l & _ & _ & _ & -> & Hheap & Hlog)%module_init_result.
  exists l, (Actions a m av mv). split; [by rewrite lookup_singleton_eq |].
  split; [rewrite Hheap; by rewrite lookup_insert_eq |].
  split; [done |]. split.
  { cbn. compute_done. }
  split; [intros k; by rewrite own_property_is_Some |].
  rewrite Hlog, drop_app_length. cbn. set_solver.
Qed.

Lemma Actions_keys_complete_witness :
  module_init marker_load empty_host = (marker_final, inr marker_index_exports) ∧
  ∃ l o,
    marker_index_exports !! "Actions" = Some (VRef l) ∧
    heap marker_final !! l = Some o ∧
    own_keys o = ["Action"; "ActionView"; "MenuAction"; "MenuActionView"] ∧
    NoDup (own_keys o) ∧
    (∀ k, is_Some (own_property k o) ↔
          k ∈ ["Action"; "ActionView"; "MenuAction"; "MenuActionView"]) ∧
    (list_to_set (own_keys o) : gset string) =
      list_to_set (drop (length (requested empty_host)) (requested marker_final)).*2.
Proof.
  split; [vm_compute; reflexivity |].
  apply (Actions_keys_complete marker_load empty_host marker_final
           marker_index_exports).
  vm_compute. reflexivity.
Defined.

Lemma marker_siblings_export :
  siblings_export marker_load (heap empty_host)
    (VString "ACTION_MARKER") (VString "MENUACTION_MARKER")
    (VString "ACTIONVIEW_MARKER") (VString "MENUACTIONVIEW_MARKER") ∅.
Proof.
  exists ∅, ∅, ∅. unfold exports_value.
  repeat split; eexists _, _;
    (split; [reflexivity |]); (split; [apply list_elem_of_singleton; reflexivity |]);
    (split; reflexivity).
Qed.

(** ** The values of [Actions] *)

(** C2.  Whatever four values the siblings export, the module initialises
    and each property of [Actions] holds the very value its sibling exports
    under that name: the object is the map from each key to that value,
    and reading any of the four keys gives that value back, with nothing
    allocated by the read. *)
Theorem Actions_identity_preserved
    (load : string → Error + Sibling)
    (s : Host) (a m av mv : Value) (h' : gmap loc Obj) :
  siblings_export load (heap s) a m av mv h' →
  ∃ s' l,
    module_init load s = (s', inr {[ "Actions" := VRef l ]}) ∧
    heap s' !! l = Some [ ("Action", a); ("ActionView", av);
                          ("MenuAction", m); ("MenuActionView", mv) ] ∧
    get_property (VRef l) "Action" s' = (s', inr a) ∧
    get_property (VRef l) "ActionView" s' = (s', inr av) ∧
    get_property (VRef l) "MenuAction" s' = (s', inr m) ∧
    get_property (VRef l) "MenuActionView" s' = (s', inr mv).
Proof.
  intros Hsib. rewrite (module_init_success _ _ _ _ _ _ _ Hsib).
  rewrite module_body_eq. cbn [heap requested].
  eexists _, _. split; [reflexivity |].
  unfold get_property. cbn [heap]. rewrite !lookup_insert_eq.
  repeat split.
Qed.

Lemma Actions_identity_preserved_witness :
  siblings_export marker_load (heap empty_host)
    (VString "ACTION_MARKER") (VString "MENUACTION_MARKER")
    (VString "ACTIONVIEW_MARKER") (VString "MENUACTIONVIEW_MARKER") ∅ ∧
  ∃ s' l,
    module_init marker_load empty_host = (s', inr {[ "Actions" := VRef l ]}) ∧
    heap s' !! l = Some [ ("Action", VString "ACTION_MARKER");
                          ("ActionView", VString "ACTIONVIEW_MARKER");
                          ("MenuAction", VString "MENUACTION_MARKER");
                          ("MenuActionView", VString "MENUACTIONVIEW_MARKER") ] ∧
    get_property (VRef l) "Action" s' = (s', inr (VString "ACTION_MARKER")) ∧
    get_property (VRef l) "ActionView" s' = (s', inr (VString "ACTIONVIEW_MARKER")) ∧
    get_property (VRef l) "MenuAction" s' = (s', inr (VString "MENUACTION_MARKER")) ∧
    get_property (VRef l) "MenuActionView" s' =
      (s', inr (VString "MENUACTIONVIEW_MARKER")).
Proof.
  split; [exact marker_siblings_export |].
  apply (Actions_identity_preserved marker_load empty_host
           (VString "ACTION_MARKER") (VString "MENUACTION_MARKER")
           (VString "ACTIONVIEW_MARKER") (VString "MENUACTIONVIEW_MARKER") ∅).
  exact marker_siblings_export.
Defined.

(** ** The module's interface *)

(** C3.  When the module initialises, its exports are the single binding
    [Actions] (there is no [default] and no other name), and [Actions]
    refers to the object the literal denotes, each of the four keys holding
    the value imported under that name. *)
Theorem index_exports_only_Actions
    (load : string → Error + Sibling)
    (s s' : Host) (exports : gmap string Value) :
  module_init load s = (s', inr exports) →
  ∃ l a m av mv h',
    siblings_export load (heap s) a m av mv h' ∧
    exports = {[ "Actions" := VRef l ]} ∧
    dom exports = {[ "Actions" ]} ∧
    exports !! "default" = None ∧
    (∀ n, n ≠ "Actions" → exports !! n = None) ∧
    heap s' !! l = Some (object_literal [ ("Action", a); ("ActionView", av);
                                          ("MenuAction", m);
                                          ("MenuActionView", mv) ]).
Proof.
  intros (a & m & av & mv & h' & l & Hsib & _ & _ & -> & Hheap & _)%module_init_result.
  exists l, a, m, av, mv, h'. split; [done |]. split; [done |].
  split; [by rewrite dom_singleton_L |].
  split; [done |].
  split; [intros n Hn; by rewrite lookup_singleton_ne |].
  rewrite Hheap, lookup_insert_eq. done.
Qed.

Lemma index_exports_only_Actions_witness :
  module_init marker_load empty_host = (marker_final, inr marker_index_exports) ∧
  ∃ l a m av mv h',
    siblings_export marker_load (heap empty_host) a m av mv h' ∧
    marker_index_exports = {[ "Actions" := VRef l ]} ∧
    dom marker_index_exports = {[ "Actions" ]} ∧
    marker_index_exports !! "default" = None ∧
    (∀ n, n ≠ "Actions" → marker_index_exports !! n = None) ∧
    heap marker_final !! l =
      Some (object_literal [ ("Action", a); ("ActionView", av);
                             ("MenuAction", m); ("MenuActionView", mv) ]).
Proof.
  split; [vm_compute; reflexivity |].
  apply (index_exports_only_Actions marker_load empty_host marker_final
           marker_index_exports).
  vm_compute. reflexivity.
Defined.

(** ** Failure of initialisation *)




(** The three kinds of failure, one host each.  On the last host the base
    model would throw if it ran, but the base view cannot be resolved, and
    that is what initialisation reports. *)
Example failure_runs :
  (module_init broken_load empty_host).2 =
    inl (InitFailed "./models/menuAction" (VString "boom")) ∧
  (module_init nameless_load empty_host).2 =
    inl (NoSuchExport "./models/action" "Action") ∧
  (module_init tangled_load empty_host).2 =
    inl (CannotResolve "./views/actionView").
Proof. repeat split; vm_compute; reflexivity. Qed.

(** ** Reading [Actions] *)

Section Consumers.

Variable load : string → Error + Sibling.

Lemma get_property_pure (obj : Value) (k : string) (s : Host) :
  (get_property obj k s).1 = s.
Proof.
  unfold get_property. destruct obj as [| | | | l]; try done.
  by destruct (heap s !! l).
Qed.

Lemma get_keys_pure (obj : Value) (s : Host) : (get_keys obj s).1 = s.
Proof.
  unfold get_keys. destruct obj as [| | | | l]; try done.
  by destruct (heap s !! l).
Qed.

(** Once the module has an outcome, importing it changes nothing. *)
Lemma import_index_settled (w : World) :
  status w ≠ Uninitialized → (import_index load w).1 = w.
Proof. unfold import_index. by destruct (status w). Qed.

Lemma import_index_settles (w : World) :
  status (import_index load w).1 ≠ Uninitialized.
Proof.
  unfold import_index. destruct (status w) eqn:Hst; cbn; try by rewrite Hst.
  by destruct (module_init load (host w)) as [s' [e | exports]].
Qed.

(** Importing twice is importing once. *)
Lemma import_index_idem (w : World) :
  import_index load (import_index load w).1 = import_index load w.
Proof.
  unfold import_index. destruct (status w) eqn:Hst; cbn.
  - by destruct (module_init load (host w)) as [s' [e | exports]].
  - rewrite Hst. by destruct w.
  - rewrite Hst. by destruct w.
Qed.

(** An observation starts with an import, so it may as well start from
    the world the import leaves. *)
Lemma observe_after_import (op : Op) (w : World) :
  observe load op w = observe load op (import_index load w).1.
Proof. unfold observe. by rewrite import_index_idem. Qed.

(** Once the module has an outcome, no observation changes the world. *)
Lemma observe_settled (op : Op) (w : World) :
  status w ≠ Uninitialized → (observe load op w).1 = w.
Proof.
  intros Hst. unfold observe.
  pose proof (import_index_settled w Hst) as Hw.
  destruct (import_index load w) as [w' [e | exports]]; cbn in Hw; subst w'.
  - done.
  - destruct op as [| k |]; cbn.
    + done.
    + pose proof (get_property_pure (default VUndefined (exports !! "Actions"))
                    k (host w)) as Hp.
      destruct (get_property _ k (host w)) as [s' r]. cbn in *. subst s'.
      by destruct w.
    + pose proof (get_keys_pure (default VUndefined (exports !! "Actions"))
                    (host w)) as Hp.
      destruct (get_keys _ (host w)) as [s' r]. cbn in *. subst s'.
      by destruct w.
Qed.

Lemma observe_settles (op : Op) (w : World) :
  status (observe load op w).1 ≠ Uninitialized.
Proof.
  unfold observe. pose proof (import_index_settles w) as Hw.
  destruct (import_index load w) as [w' [e | exports]]; cbn in Hw; [done |].
  destruct op as [| k |]; cbn; [done | |].
  - by destruct (get_property _ k (host w')).
  - by destruct (get_keys _ (host w')).
Qed.

Lemma run_settled (ops : list Op) (w : World) :
  status w ≠ Uninitialized →
  run load ops w = (w, (λ op, (observe load op w).2) <$> ops).
Proof.
  intros Hst. induction ops as [| op ops IH]; cbn; [done |].
  pose proof (observe_settled op w Hst) as Hw.
  destruct (observe load op w) as [w' o]. cbn in Hw. subst w'.
  by rewrite IH.
Qed.

End Consumers.

(** C5.  Two successive reads of the same property of [Actions] observe
    the same thing, and the second read leaves the world, heap included,
    exactly as the first left it: nothing is created by a read.  This holds
    from every world and for every key. *)
Theorem Actions_reads_stable
    (load : string → Error + Sibling)
    (w : World) (k : string) :
  let first := observe load (ReadProperty k) w in
  let second := observe load (ReadProperty k) first.1 in
  second.2 = first.2 ∧ second.1 = first.1.
Proof.
  cbn zeta.
  pose proof (observe_settles load (ReadProperty k) w) as Hst.
  split; [| by apply observe_settled].
  rewrite (observe_after_import load (ReadProperty k) w).
  pose proof (import_index_settles load w) as Hw.
  by rewrite (observe_settled load _ _ Hw).
Qed.

(** Two reads on the marker host, the first of which initialises the
    module. *)
Example marker_reads :
  (run marker_load [ReadProperty "Action"; ReadProperty "Action"]
     (mkWorld empty_host Uninitialized)).2 =
    [ Property (inr (VString "ACTION_MARKER"));
      Property (inr (VString "ACTION_MARKER")) ].
Proof. vm_compute. reflexivity. Qed.

(** ** [Actions] after initialisation *)

(** C7.  Once the module has initialised, nothing a consumer can do through
    the module changes [Actions]: after any sequence of imports, property
    reads and key listings the world is the world initialisation left, so
    the binding is the same reference, the object at it holds the same four
    pairs, and every observation is what it was right after
    initialisation. *)
Theorem Actions_never_changes
    (load : string → Error + Sibling)
    (s s' : Host) (exports : gmap string Value) :
  module_init load s = (s', inr exports) →
  let w := mkWorld s' (Initialized exports) in
  import_index load (mkWorld s Uninitialized) = (w, inr exports) ∧
  ∃ l a m av mv,
    exports !! "Actions" = Some (VRef l) ∧
    heap s' !! l = Some (Actions a m av mv) ∧
    ∀ ops,
      (run load ops w).1 = w ∧
      (run load ops w).2 = (λ op, (observe load op w).2) <$> ops ∧
      status (run load ops w).1 = Initialized exports ∧
      heap (host (run load ops w).1) !! l = Some (Actions a m av mv).
Proof.
  intros Hinit w. split.
  { unfold import_index. cbn. by rewrite Hinit. }
  destruct (module_init_result _ _ _ _ Hinit)
    as (a & m & av & mv & h' & l & _ & _ & _ & Hexp & Hheap & _).
  exists l, a, m, av, mv.
  assert (Hl : heap s' !! l = Some (Actions a m av mv)).
  { rewrite Hheap. by rewrite lookup_insert_eq. }
  split; [subst exports; by rewrite lookup_singleton_eq |].
  split; [done |]. intros ops.
  rewrite (run_settled load ops w); [| done]. cbn. done.
Qed.

Lemma Actions_never_changes_witness :
  module_init marker_load empty_host = (marker_final, inr marker_index_exports) ∧
  let w := mkWorld marker_final (Initialized marker_index_exports) in
  import_index marker_load (mkWorld empty_host Uninitialized)
    = (w, inr marker_index_exports) ∧
  ∃ l a m av mv,
    marker_index_exports !! "Actions" = Some (VRef l) ∧
    heap marker_final !! l = Some (Actions a m av mv) ∧
    ∀ ops,
      (run marker_load ops w).1 = w ∧
      (run marker_load ops w).2 = (λ op, (observe marker_load op w).2) <$> ops ∧
      status (run marker_load ops w).1 = Initialized marker_index_exports ∧
      heap (host (run marker_load ops w).1) !! l = Some (Actions a m av mv).
Proof.
  split; [vm_compute; reflexivity |].
  apply (Actions_never_changes marker_load empty_host marker_final
           marker_index_exports).
  vm_compute. reflexivity.
Defined.

(** The module does not freeze [Actions]: a consumer that writes to it
    with the host's own assignment is not stopped, and later reads see the
    write. *)
Remark Actions_is_not_frozen :
  let s := (set_property (VRef 1%positive) "Action" VNull marker_final).1 in
  get_property (VRef 1%positive) "Action" marker_final
    = (marker_final, inr (VString "ACTION_MARKER")) ∧
  get_property (VRef 1%positive) "Action" s = (s, inr VNull).
Proof. split; vm_compute; reflexivity. Qed.

(** ** The order of the keys *)

(** C8.  The keys of [Actions] come in the order [Action], [ActionView],
    [MenuAction], [MenuActionView], which is what listing the keys
    returns.  That order is alphabetical.  The names were imported in
    another order, [Action], [MenuAction], [ActionView], [MenuActionView]:
    the same names, differently arranged. *)
Theorem Actions_key_order
    (load : string → Error + Sibling)
    (s s' : Host) (exports : gmap string Value) :
  module_init load s = (s', inr exports) →
  ∃ l o,
    exports !! "Actions" = Some (VRef l) ∧
    heap s' !! l = Some o ∧
    own_keys o = ["Action"; "ActionView"; "MenuAction"; "MenuActionView"] ∧
    get_keys (VRef l) s' =
      (s', inr ["Action"; "ActionView"; "MenuAction"; "MenuActionView"]) ∧
    StronglySorted (λ k1 k2, String.ltb k1 k2 = true) (own_keys o) ∧
    let imported := (drop (length (requested s)) (requested s')).*2 in
    imported = ["Action"; "MenuAction"; "ActionView"; "MenuActionView"] ∧
    own_keys o ≠ imported ∧
    own_keys o ≡ₚ imported.
Proof.
  intros (a & m & av & mv & h' & l & _ & _ & _ & -> & Hheap & Hlog)%module_init_result.
  assert (Hl : heap s' !! l = Some (Actions a m av mv)).
  { rewrite Hheap. by rewrite lookup_insert_eq. }
  exists l, (Actions a m av mv).
  split; [by rewrite lookup_singleton_eq |]. split; [done |].
  split; [done |].
  split; [unfold get_keys, Obj in *; cbv beta iota; by rewrite Hl |].
  split.
  { cbn. repeat (apply SSorted_cons; [| repeat (apply Forall_cons; split; [reflexivity |]); apply Forall_nil_2]).
    apply SSorted_nil. }
  cbn zeta. rewrite Hlog, drop_app_length. cbn.
  split; [done |]. split; [discriminate |].
  apply Permutation_skip, Permutation_swap.
Qed.

Lemma Actions_key_order_witness :
  module_init marker_load empty_host = (marker_final, inr marker_index_exports) ∧
  ∃ l o,
    marker_index_exports !! "Actions" = Some (VRef l) ∧
    heap marker_final !! l = Some o ∧
    own_keys o = ["Action"; "ActionView"; "MenuAction"; "MenuActionView"] ∧
    get_keys (VRef l) marker_final =
      (marker_final, inr ["Action"; "ActionView"; "MenuAction"; "MenuActionView"]) ∧
    StronglySorted (λ k1 k2, String.ltb k1 k2 = true) (own_keys o) ∧
    let imported :=
      (drop (length (requested empty_host)) (requested marker_final)).*2 in
    imported = ["Action"; "MenuAction"; "ActionView"; "MenuActionView"] ∧
    own_keys o ≠ imported ∧
    own_keys o ≡ₚ imported.
Proof.
  split; [vm_compute; reflexivity |].
  apply (Actions_key_order marker_load empty_host marker_final
           marker_index_exports).
  vm_compute. reflexivity.
Defined.

(** ** Using the classes through [Actions] *)

Lemma class_siblings_export :
  siblings_export class_load (heap empty_host)
    (VRef 1%positive) (VRef 2%positive) (VRef 3%positive) (VRef 4%positive)
    class_heap.
Proof.
  eexists _, _, _. unfold exports_value.
  repeat split; eexists _, _;
    (split; [reflexivity |]); (split; [apply list_elem_of_singleton; reflexivity |]);
    (split; [vm_compute; reflexivity | reflexivity]).
Qed.

(** Reading one of the four keys from a host that holds the object. *)
Lemma get_property_Actions (l : loc) (a m av mv : Value) (s : Host) :
  heap s !! l = Some (Actions a m av mv) →
  get_property (VRef l) "Action" s = (s, inr a) ∧
  get_property (VRef l) "ActionView" s = (s, inr av) ∧
  get_property (VRef l) "MenuAction" s = (s, inr m) ∧
  get_property (VRef l) "MenuActionView" s = (s, inr mv).
Proof.
  intros Hl. unfold get_property, Obj in *. cbv beta iota. by rewrite Hl.
Qed.

(** C6 as the specification words it has invoking through
    [Actions.Action] give what invoking the sibling's export gives.  Here
    the base model is a constructor, as [new] on it shows, and also a
    function that returns its receiver: called through [Actions] it returns
    [Actions], called directly it returns [undefined]. *)
Lemma call_through_Actions_sees_Actions :
  let s' := (module_init class_load empty_host).1 in
  (module_init class_load empty_host).2 = inr {[ "Actions" := VRef 5%positive ]} ∧
  (get_property (VRef 5%positive) "Action" s').2 = inr (VRef 1%positive) ∧
  (new_direct class_construct (VRef 1%positive) [] s').2 = inr (VRef 6%positive) ∧
  (call_member this_call (VRef 5%positive) "Action" [] s').2
    = inr (VRef 5%positive) ∧
  (call_direct this_call (VRef 1%positive) [] s').2 = inr VUndefined ∧
  call_member this_call (VRef 5%positive) "Action" [] s'
    ≠ call_direct this_call (VRef 1%positive) [] s'.
Proof.
  cbn zeta. repeat split; try (vm_compute; reflexivity).
  intros Heq. apply (f_equal snd) in Heq. vm_compute in Heq. discriminate.
Qed.

(** C6, as amended.  Let the siblings export [a] as [Action] and [m] as
    [MenuAction].  In every later state that still holds the [Actions]
    object, [new Actions.Action(args)] is [new a(args)], and likewise for
    [MenuAction]: same result, same effect on the host.  A call
    [Actions.Action(args)] is a call of [a] itself, the very value the
    sibling exports, with [Actions] as the receiver, where the call
    [a(args)] has [undefined] as the receiver: the two calls differ in the
    receiver and in nothing else. *)
Theorem Actions_constructors_unaltered
    (construct : Value → list Value → M Value)
    (call : Value → Value → list Value → M Value)
    (load : string → Error + Sibling)
    (s : Host) (a m av mv : Value) (h' : gmap loc Obj) :
  siblings_export load (heap s) a m av mv h' →
  ∃ s' l,
    module_init load s = (s', inr {[ "Actions" := VRef l ]}) ∧
    ∀ s2 args,
      heap s2 !! l = heap s' !! l →
      new_member construct (VRef l) "Action" args s2
        = new_direct construct a args s2 ∧
      new_member construct (VRef l) "MenuAction" args s2
        = new_direct construct m args s2 ∧
      call_member call (VRef l) "Action" args s2 = call a (VRef l) args s2 ∧
      call_member call (VRef l) "MenuAction" args s2 = call m (VRef l) args s2 ∧
      call_direct call a args s2 = call a VUndefined args s2 ∧
      call_direct call m args s2 = call m VUndefined args s2.
Proof.
  intros Hsib. rewrite (module_init_success _ _ _ _ _ _ _ Hsib).
  rewrite module_body_eq. cbn [heap requested].
  eexists _, _. split; [reflexivity |].
  intros s2 args Hs2. cbn [heap] in Hs2. rewrite lookup_insert_eq in Hs2.
  destruct (get_property_Actions _ _ _ _ _ _ Hs2) as (Ga & _ & Gm & _).
  unfold new_member, call_member, new_direct, call_direct, bind.
  by rewrite Ga, Gm.
Qed.

Lemma Actions_constructors_unaltered_witness :
  siblings_export class_load (heap empty_host)
    (VRef 1%positive) (VRef 2%positive) (VRef 3%positive) (VRef 4%positive)
    class_heap ∧
  ∃ s' l,
    module_init class_load empty_host = (s', inr {[ "Actions" := VRef l ]}) ∧
    ∀ s2 args,
      heap s2 !! l = heap s' !! l →
      new_member class_construct (VRef l) "Action" args s2
        = new_direct class_construct (VRef 1%positive) args s2 ∧
      new_member class_construct (VRef l) "MenuAction" args s2
        = new_direct class_construct (VRef 2%positive) args s2 ∧
      call_member this_call (VRef l) "Action" args s2
        = this_call (VRef 1%positive) (VRef l) args s2 ∧
      call_member this_call (VRef l) "MenuAction" args s2
        = this_call (VRef 2%positive) (VRef l) args s2 ∧
      call_direct this_call (VRef 1%positive) args s2
        = this_call (VRef 1%positive) VUndefined args s2 ∧
      call_direct this_call (VRef 2%positive) args s2
        = this_call (VRef 2%positive) VUndefined args s2.
Proof.
  split; [exact class_siblings_export |].
  apply (Actions_constructors_unaltered class_construct this_call class_load
           empty_host (VRef 1%positive) (VRef 2%positive) (VRef 3%positive)
           (VRef 4%positive) class_heap).
  exact class_siblings_export.
Defined.

(** A value that behaves the same whatever its receiver, as a class does,
    which rejects every call, is called through [Actions] as it is called
    directly. *)
Lemma call_member_ignoring_receiver
    (call : Value → Value → list Value → M Value)
    (l : loc) (a m av mv : Value) (s : Host) (args : list Value) :
  heap s !! l = Some (Actions a m av mv) →
  ignores_receiver call a →
  call_member call (VRef l) "Action" args s = call_direct call a args s.
Proof.
  intros Hl Hign. destruct (get_property_Actions _ _ _ _ _ _ Hl) as (Ga & _).
  unfold call_member, call_direct, bind. rewrite Ga. apply Hign.
Qed.

(** What the class host does: the module's object goes to address 5, an
    instance made through [Actions] goes to address 6 and records the class
    at address 1, and a call fails. *)
Example class_run :
  let s' := (module_init class_load empty_host).1 in
  (module_init class_load empty_host).2 = inr {[ "Actions" := VRef 5%positive ]} ∧
  (new_member class_construct (VRef 5%positive) "Action" [VString "x"] s').2
    = inr (VRef 6%positive) ∧
  heap (new_member class_construct (VRef 5%positive) "Action" [VString "x"] s').1
    !! 6%positive
    = Some [("constructor", VRef 1%positive); ("attributes", VString "x")] ∧
  (call_member class_call (VRef 5%positive) "Action" [] s').2
    = inl (TypeError "class constructors must be invoked with new").
Proof. repeat split; vm_compute; reflexivity. Qed.

(** ** Determinism *)

(** C9.  The [Actions] object is a function of the four imported values
    alone: two initialisations, under any two loaders and from any two
    hosts, in which the siblings export the same four values, produce
    objects with the same contents, and every property reads the same in
    both. *)
Theorem Actions_deterministic
    (load1 load2 :
       string → Error + Sibling)
    (s1 s2 : Host) (a m av mv : Value) (h1 h2 : gmap loc Obj) :
  siblings_export load1 (heap s1) a m av mv h1 →
  siblings_export load2 (heap s2) a m av mv h2 →
  ∃ s1' s2' l1 l2 o,
    module_init load1 s1 = (s1', inr {[ "Actions" := VRef l1 ]}) ∧
    module_init load2 s2 = (s2', inr {[ "Actions" := VRef l2 ]}) ∧
    heap s1' !! l1 = Some o ∧
    heap s2' !! l2 = Some o ∧
    ∀ k, (get_property (VRef l1) k s1').2 = (get_property (VRef l2) k s2').2.
Proof.
  intros Hsib1 Hsib2.
  rewrite (module_init_success _ _ _ _ _ _ _ Hsib1).
  rewrite (module_init_success _ _ _ _ _ _ _ Hsib2).
  rewrite !module_body_eq. cbn [heap requested].
  eexists _, _, _, _, (Actions a m av mv).
  split; [reflexivity |]. split; [reflexivity |]. cbn [heap].
  split; [by rewrite lookup_insert_eq |].
  split; [by rewrite lookup_insert_eq |].
  intros k. unfold get_property. cbn [heap]. by rewrite !lookup_insert_eq.
Qed.

Lemma marker_siblings_export_busy :
  siblings_export marker_load (heap busy_host)
    (VString "ACTION_MARKER") (VString "MENUACTION_MARKER")
    (VString "ACTIONVIEW_MARKER") (VString "MENUACTIONVIEW_MARKER")
    (heap busy_host).
Proof.
  exists (heap busy_host), (heap busy_host), (heap busy_host).
  unfold exports_value.
  repeat split; eexists _, _;
    (split; [reflexivity |]); (split; [apply list_elem_of_singleton; reflexivity |]);
    (split; reflexivity).
Qed.

Lemma Actions_deterministic_witness :
  siblings_export marker_load (heap empty_host)
    (VString "ACTION_MARKER") (VString "MENUACTION_MARKER")
    (VString "ACTIONVIEW_MARKER") (VString "MENUACTIONVIEW_MARKER") ∅ ∧
  siblings_export marker_load (heap busy_host)
    (VString "ACTION_MARKER") (VString "MENUACTION_MARKER")
    (VString "ACTIONVIEW_MARKER") (VString "MENUACTIONVIEW_MARKER")
    (heap busy_host) ∧
  ∃ s1' s2' l1 l2 o,
    module_init marker_load empty_host = (s1', inr {[ "Actions" := VRef l1 ]}) ∧
    module_init marker_load busy_host = (s2', inr {[ "Actions" := VRef l2 ]}) ∧
    heap s1' !! l1 = Some o ∧
    heap s2' !! l2 = Some o ∧
    ∀ k, (get_property (VRef l1) k s1').2 = (get_property (VRef l2) k s2').2.
Proof.
  split; [exact marker_siblings_export |].
  split; [exact marker_siblings_export_busy |].
  apply (Actions_deterministic marker_load marker_load empty_host busy_host
           (VString "ACTION_MARKER") (VString "MENUACTION_MARKER")
           (VString "ACTIONVIEW_MARKER") (VString "MENUACTIONVIEW_MARKER")
           ∅ (heap busy_host)).
  - exact marker_siblings_export.
  - exact marker_siblings_export_busy.
Defined.

(** On the busy host the object goes to another address than on the empty
    host, with the same contents. *)
Example busy_run :
  (module_init marker_load busy_host).2 = inr {[ "Actions" := VRef 2%positive ]} ∧
  heap (module_init marker_load busy_host).1 !! 2%positive = Some marker_Actions.
Proof. split; vm_compute; reflexivity. Qed.

(** ** The module's own code cannot fail *)

Lemma undefined_siblings_export :
  siblings_export undefined_load (heap empty_host)
    VUndefined VUndefined VUndefined VUndefined ∅.
Proof.
  exists ∅, ∅, ∅. unfold exports_value.
  repeat split; eexists _, _;
    (split; [reflexivity |]); (split; [apply list_elem_of_singleton; reflexivity |]);
    (split; reflexivity).
Qed.

(** C10.  Once the four imports have given four values, whatever they are,
    the module's own code completes: from every host the body returns the
    exports and throws nothing, and so does the initialisation as a
    whole. *)
Theorem module_body_never_throws
    (load : string → Error + Sibling)
    (s : Host) (a m av mv : Value) (h' : gmap loc Obj) :
  siblings_export load (heap s) a m av mv h' →
  (∀ s0, ∃ s0' l,
     module_body a m av mv s0 = (s0', inr {[ "Actions" := VRef l ]})) ∧
  (∀ s0, failed (module_body a m av mv s0).2 = false) ∧
  (∃ s' l, module_init load s = (s', inr {[ "Actions" := VRef l ]})) ∧
  failed (module_init load s).2 = false.
Proof.
  intros Hsib. rewrite (module_init_success _ _ _ _ _ _ _ Hsib).
  split; [intros s0; rewrite module_body_eq; by eexists _, _ |].
  split; [done |].
  split; [rewrite module_body_eq; by eexists _, _ | done].
Qed.

Lemma module_body_never_throws_witness :
  siblings_export undefined_load (heap empty_host)
    VUndefined VUndefined VUndefined VUndefined ∅ ∧
  (∀ s0, ∃ s0' l,
     module_body VUndefined VUndefined VUndefined VUndefined s0
       = (s0', inr {[ "Actions" := VRef l ]})) ∧
  (∀ s0, failed (module_body VUndefined VUndefined VUndefined VUndefined s0).2
         = false) ∧
  (∃ s' l, module_init undefined_load empty_host
           = (s', inr {[ "Actions" := VRef l ]})) ∧
  failed (module_init undefined_load empty_host).2 = false.
Proof.
  split; [exact undefined_siblings_export |].
  apply (module_body_never_throws undefined_load empty_host
           VUndefined VUndefined VUndefined VUndefined ∅).
  exact undefined_siblings_export.
Defined.

(** With [undefined] everywhere the object still has its four keys. *)
Example undefined_run :
  (module_init undefined_load empty_host).2 = inr {[ "Actions" := VRef 1%positive ]} ∧
  heap (module_init undefined_load empty_host).1 !! 1%positive =
    Some [ ("Action", VUndefined); ("ActionView", VUndefined);
           ("MenuAction", VUndefined); ("MenuActionView", VUndefined) ].
Proof. split; vm_compute; reflexivity. Qed.

(** ** What initialisation does to the heap *)

(** X1.  A successful initialisation adds exactly one object to the heap
    the siblings left: the [Actions] object, at an address that heap did not
    use.  Every object that was there is still there, unchanged, and the
    module has asked for its four imports and for nothing else. *)
Theorem init_adds_one_object
    (load : string → Error + Sibling)
    (s s' : Host) (exports : gmap string Value) :
  module_init load s = (s', inr exports) →
  ∃ h' l a m av mv,
    siblings_export load (heap s) a m av mv h' ∧
    exports !! "Actions" = Some (VRef l) ∧
    (l ∉ dom h') ∧
    dom (heap s') = {[ l ]} ∪ dom h' ∧
    size (heap s') = S (size h') ∧
    (∀ l', l' ≠ l → heap s' !! l' = h' !! l') ∧
    (∀ l' o, h' !! l' = Some o → heap s' !! l' = Some o) ∧
    requested s' = (requested s ++ index_requests)%list.
Proof.
  intros Hinit.
  destruct (module_init_result _ _ _ _ Hinit)
    as (a & m & av & mv & h' & l & Hsib & _ & Hnone & -> & Hheap & Hlog).
  exists h', l, a, m, av, mv. rewrite Hheap.
  split; [done |]. split; [by rewrite lookup_singleton_eq |].
  split; [by apply not_elem_of_dom |].
  split; [by rewrite dom_insert_L |].
  split; [by rewrite map_size_insert_None |].
  split; [intros l' Hne; by rewrite lookup_insert_ne |].
  split; [| done].
  intros l' o Ho. rewrite lookup_insert_ne; [done |]. congruence.
Qed.

Lemma init_adds_one_object_witness :
  module_init class_load empty_host
    = ((module_init class_load empty_host).1, inr {[ "Actions" := VRef 5%positive ]}) ∧
  ∃ h' l a m av mv,
    siblings_export class_load (heap empty_host) a m av mv h' ∧
    ({[ "Actions" := VRef 5%positive ]} : gmap string Value) !! "Actions"
      = Some (VRef l) ∧
    (l ∉ dom h') ∧
    dom (heap (module_init class_load empty_host).1) = {[ l ]} ∪ dom h' ∧
    size (heap (module_init class_load empty_host).1) = S (size h') ∧
    (∀ l', l' ≠ l → heap (module_init class_load empty_host).1 !! l' = h' !! l') ∧
    (∀ l' o, h' !! l' = Some o →
             heap (module_init class_load empty_host).1 !! l' = Some o) ∧
    requested (module_init class_load empty_host).1
      = (requested empty_host ++ index_requests)%list.
Proof.
  split; [vm_compute; reflexivity |].
  apply (init_adds_one_object class_load empty_host
           (module_init class_load empty_host).1
           {[ "Actions" := VRef 5%positive ]}).
  vm_compute. reflexivity.
Defined.

(** X2.  [Actions] is a new object: its reference differs from every
    reference to an object the siblings left in the heap.  So it is none of
    the four values it holds, as long as those are live, and it does not
    contain itself. *)
Theorem Actions_is_a_new_object
    (load : string → Error + Sibling)
    (s : Host) (a m av mv : Value) (h' : gmap loc Obj) :
  siblings_export load (heap s) a m av mv h' →
  live h' a → live h' m → live h' av → live h' mv →
  ∃ s' l o,
    module_init load s = (s', inr {[ "Actions" := VRef l ]}) ∧
    heap s' !! l = Some o ∧
    (∀ l0, l0 ∈ dom h' → l ≠ l0) ∧
    VRef l ≠ a ∧ VRef l ≠ m ∧ VRef l ≠ av ∧ VRef l ≠ mv ∧
    (∀ k v, own_property k o = Some v → v ≠ VRef l).
Proof.
  intros Hsib La Lm Lav Lmv.
  rewrite (module_init_success _ _ _ _ _ _ _ Hsib).
  rewrite module_body_eq. cbn [heap requested].
  pose proof (is_fresh (dom h')) as Hfresh.
  set (l := fresh (dom h')) in *.
  assert (Hnew : ∀ v, live h' v → VRef l ≠ v).
  { intros v Hv <-. by apply Hfresh. }
  exists (mkHost (<[l := Actions a m av mv]> h')
                 (requested s ++ index_requests)), l, (Actions a m av mv).
  split; [done |]. cbn [heap].
  split; [by rewrite lookup_insert_eq |].
  split; [intros l0 Hl0 ->; by apply Hfresh |].
  repeat (split; [by apply Hnew |]).
  intros k v Hk Hv. cbn in Hk.
  repeat case_decide; simplify_eq; by eapply Hnew.
Qed.

Lemma Actions_is_a_new_object_witness :
  siblings_export class_load (heap empty_host)
    (VRef 1%positive) (VRef 2%positive) (VRef 3%positive) (VRef 4%positive)
    class_heap ∧
  live class_heap (VRef 1%positive) ∧ live class_heap (VRef 2%positive) ∧
  live class_heap (VRef 3%positive) ∧ live class_heap (VRef 4%positive) ∧
  ∃ s' l o,
    module_init class_load empty_host = (s', inr {[ "Actions" := VRef l ]}) ∧
    heap s' !! l = Some o ∧
    (∀ l0, l0 ∈ dom class_heap → l ≠ l0) ∧
    VRef l ≠ VRef 1%positive ∧ VRef l ≠ VRef 2%positive ∧
    VRef l ≠ VRef 3%positive ∧ VRef l ≠ VRef 4%positive ∧
    (∀ k v, own_property k o = Some v → v ≠ VRef l).
Proof.
  assert (L : ∀ l, l ∈ [1; 2; 3; 4]%positive → live class_heap (VRef l)).
  { intros l Hl. cbn. apply elem_of_dom.
    repeat (apply elem_of_cons in Hl as [-> | Hl]; [by eexists |]).
    by apply elem_of_nil in Hl. }
  split; [exact class_siblings_export |].
  repeat (split; [apply L; set_solver |]).
  apply (Actions_is_a_new_object class_load empty_host
           (VRef 1%positive) (VRef 2%positive) (VRef 3%positive)
           (VRef 4%positive) class_heap).
  - exact class_siblings_export.
  - apply L; set_solver.
  - apply L; set_solver.
  - apply L; set_solver.
  - apply L; set_solver.
Defined.

(** ** When initialisation succeeds, and how it fails *)

(** X3.  Initialisation succeeds exactly when each of the four siblings,
    loaded in import order, loads and exports the name imported from it. *)
Theorem init_succeeds_iff_siblings_export
    (load : string → Error + Sibling)
    (s : Host) :
  failed (module_init load s).2 = false ↔
  ∃ a m av mv h', siblings_export load (heap s) a m av mv h'.
Proof.
  split.
  - destruct (module_init load s) as [s' [e | exports]] eqn:Hinit;
      [discriminate |]. intros _.
    destruct (module_init_inr _ _ _ _ Hinit) as (a & m & av & mv & h' & H & _).
    by exists a, m, av, mv, h'.
  - intros (a & m & av & mv & h' & Hsib).
    rewrite (module_init_success _ _ _ _ _ _ _ Hsib). by rewrite module_body_eq.
Qed.

(** A failed initialisation, in full: either nothing has run, because a
    sibling cannot be resolved or a name is missing, or the siblings have
    run up to one whose initialisation failed. *)
Lemma module_init_inl (load : string → Error + Sibling)
    (s s' : Host) (e : Error) :
  module_init load s = (s', inl e) →
  (heap s' = heap s ∧
   (resolve_all load index_specifiers = inl e ∨
    ∃ siblings,
      resolve_all load index_specifiers = inr siblings ∧
      first_missing siblings index_requests = Some e)) ∨
  (∃ siblings i sibling,
     resolve_all load index_specifiers = inr siblings ∧
     first_missing siblings index_requests = None ∧
     siblings !! i = Some sibling ∧
     first_failure (take i siblings) (heap s) = None ∧
     (evaluate sibling (heap_after (take i siblings) (heap s))).2 = inl e ∧
     heap s' = heap_after (take (S i) siblings) (heap s)).
Proof.
  unfold index_specifiers, index_requests. cbn [resolve_all].
  unfold module_init, bind, resolve_import. cbn [heap requested].
  destruct (load "./models/action") as [? | s1];
    [intros [= <- <-]; left; by split; [| left] |].
  destruct (load "./models/menuAction") as [? | s2];
    [intros [= <- <-]; left; by split; [| left] |].
  destruct (load "./views/actionView") as [? | s3];
    [intros [= <- <-]; left; by split; [| left] |].
  destruct (load "./views/menuActionView") as [? | s4];
    [intros [= <- <-]; left; by split; [| left] |].
  unfold link_index, bind, link_import, ret, throw.
  destruct (decide ("Action" ∈ declared s1)) as [D1 | D1]; cycle 1.
  { intros [= <- <-]. left. split; [done |]. right. eexists. split; [done |].
    cbn. by rewrite decide_False. }
  destruct (decide ("MenuAction" ∈ declared s2)) as [D2 | D2]; cycle 1.
  { intros [= <- <-]. left. split; [done |]. right. eexists. split; [done |].
    cbn. rewrite decide_True by done. by rewrite decide_False. }
  destruct (decide ("ActionView" ∈ declared s3)) as [D3 | D3]; cycle 1.
  { intros [= <- <-]. left. split; [done |]. right. eexists. split; [done |].
    cbn. rewrite !decide_True by done. by rewrite decide_False. }
  destruct (decide ("MenuActionView" ∈ declared s4)) as [D4 | D4]; cycle 1.
  { intros [= <- <-]. left. split; [done |]. right. eexists. split; [done |].
    cbn. rewrite !decide_True by done. by rewrite decide_False. }
  assert (Hlink : first_missing [s1; s2; s3; s4]
            [("./models/action", "Action"); ("./models/menuAction", "MenuAction");
             ("./views/actionView", "ActionView");
             ("./views/menuActionView", "MenuActionView")] = None).
  { cbn. by rewrite !decide_True by done. }
  unfold evaluate_index, bind, evaluate_import. cbn [heap requested].
  destruct (evaluate s1 (heap s)) as [h1 [? | v1]] eqn:E1.
  { intros [= <- <-]. right. exists [s1; s2; s3; s4], 0, s1.
    repeat (split; [done |]). cbn. by rewrite E1. }
  cbn [heap requested].
  destruct (evaluate s2 h1) as [h2 [? | v2]] eqn:E2.
  { intros [= <- <-]. right. exists [s1; s2; s3; s4], 1, s2.
    repeat (split; [done |]). cbn. rewrite !E1. cbn. by rewrite E2. }
  cbn [heap requested].
  destruct (evaluate s3 h2) as [h3 [? | v3]] eqn:E3.
  { intros [= <- <-]. right. exists [s1; s2; s3; s4], 2, s3.
    repeat (split; [done |]). cbn. rewrite !E1. cbn. rewrite !E2. cbn.
    by rewrite E3. }
  cbn [heap requested].
  destruct (evaluate s4 h3) as [h4 [? | v4]] eqn:E4.
  { intros [= <- <-]. right. exists [s1; s2; s3; s4], 3, s4.
    repeat (split; [done |]). cbn. rewrite !E1. cbn. rewrite !E2. cbn.
    rewrite !E3. cbn. by rewrite E4. }
  cbn [heap requested]. rewrite module_body_eq. discriminate.
Qed.

(** What [resolve_all] found, one sibling at a time. *)
Lemma resolve_all_lookup (load : string → Error + Sibling)
    (specifiers : list string) (siblings : list Sibling) (i : nat)
    (sibling : Sibling) :
  resolve_all load specifiers = inr siblings →
  siblings !! i = Some sibling →
  ∃ p, specifiers !! i = Some p ∧ load p = inr sibling.
Proof.
  revert siblings i. induction specifiers as [| p ps IH]; intros siblings i; cbn.
  - intros [= <-]. by rewrite lookup_nil.
  - destruct (load p) as [? | sib] eqn:Hp; [discriminate |].
    destruct (resolve_all load ps) as [? | sibs]; [discriminate |].
    intros [= <-]. destruct i as [| i]; cbn.
    + intros [= <-]. by exists p.
    + intros Hi. by apply (IH sibs).
Qed.

Lemma resolve_all_inl (load : string → Error + Sibling)
    (specifiers : list string) (e : Error) :
  resolve_all load specifiers = inl e →
  ∃ p, p ∈ specifiers ∧ load p = inl e.
Proof.
  induction specifiers as [| p ps IH]; cbn; [discriminate |].
  destruct (load p) as [e' | sib] eqn:Hp.
  - intros [= <-]. exists p. split; [apply elem_of_cons; by left | done].
  - destruct (resolve_all load ps) as [e' | sibs]; [| discriminate].
    intros [= <-]. destruct IH as (q & Hq & Hload); [done |].
    exists q. split; [apply elem_of_cons; by right | done].
Qed.

Lemma first_missing_Some (siblings : list Sibling)
    (requests : list (string * string)) (e : Error) :
  first_missing siblings requests = Some e →
  ∃ i sibling p n,
    siblings !! i = Some sibling ∧ requests !! i = Some (p, n) ∧
    (n ∉ declared sibling) ∧ e = NoSuchExport p n.
Proof.
  revert requests. induction siblings as [| sib sibs IH];
    intros [| [p n] reqs]; cbn; try discriminate.
  destruct (decide (n ∈ declared sib)) as [Hn | Hn].
  - intros (i & sibling & p' & n' & H)%IH. by exists (S i), sibling, p', n'.
  - intros [= <-]. by exists 0, sib, p, n.
Qed.

(** X4.  If initialisation fails, the error is the host's for a sibling it
    cannot resolve, or it reports that a sibling does not export the name
    imported from it, or it is one that the initialisation of one of the
    four siblings produced.  The module produces no other error. *)
Theorem init_errors_come_from_imports
    (load : string → Error + Sibling) (s s' : Host) (e : Error) :
  module_init load s = (s', inl e) →
  (∃ p, p ∈ index_specifiers ∧ load p = inl e) ∨
  (∃ p n sibling,
     (p, n) ∈ index_requests ∧ load p = inr sibling ∧
     (n ∉ declared sibling) ∧ e = NoSuchExport p n) ∨
  (∃ p sibling h,
     p ∈ index_specifiers ∧ load p = inr sibling ∧
     (evaluate sibling h).2 = inl e).
Proof.
  intros [[_ [Hres | (sibs & Hres & Hmiss)]]
         | (sibs & i & sib & Hres & _ & Hi & _ & Heval & _)]%module_init_inl.
  - left. by apply resolve_all_inl.
  - right; left.
    destruct (first_missing_Some _ _ _ Hmiss)
      as (i & sib & p & n & Hi & Hreq & Hn & ->).
    destruct (resolve_all_lookup _ _ _ _ _ Hres Hi) as (p' & Hp' & Hload).
    assert (p' = p) as ->.
    { change index_specifiers with (index_requests.*1) in Hp'.
      rewrite list_lookup_fmap, Hreq in Hp'. by injection Hp'. }
    exists p, n, sib. split; [by eapply list_elem_of_lookup_2 | done].
  - right; right.
    destruct (resolve_all_lookup _ _ _ _ _ Hres Hi) as (p & Hp & Hload).
    exists p, sib, (heap_after (take i sibs) (heap s)).
    split; [by eapply list_elem_of_lookup_2 | done].
Qed.

Lemma init_errors_come_from_imports_witness :
  module_init broken_load empty_host
    = ((module_init broken_load empty_host).1,
       inl (InitFailed "./models/menuAction" (VString "boom"))) ∧
  ((∃ p, p ∈ index_specifiers ∧
         broken_load p = inl (InitFailed "./models/menuAction" (VString "boom"))) ∨
   (∃ p n sibling,
      (p, n) ∈ index_requests ∧ broken_load p = inr sibling ∧
      (n ∉ declared sibling) ∧
      InitFailed "./models/menuAction" (VString "boom") = NoSuchExport p n) ∨
   (∃ p sibling h,
      p ∈ index_specifiers ∧ broken_load p = inr sibling ∧
      (evaluate sibling h).2
        = inl (InitFailed "./models/menuAction" (VString "boom")))).
Proof.
  split; [vm_compute; reflexivity |].
  apply (init_errors_come_from_imports broken_load empty_host
           (module_init broken_load empty_host).1).
  vm_compute. reflexivity.
Defined.

(** X5.  A failed initialisation never reaches the module's own code, so no
    [Actions] object exists.  If a sibling cannot be resolved or does not
    export an imported name, no sibling has run and the heap is as it was.
    If a sibling's initialisation fails, the siblings before it have run
    and completed, those after it have not run, and the heap is the heap
    the failing one left. *)
Theorem failed_init_runs_no_body
    (load : string → Error + Sibling) (s s' : Host) (e : Error) :
  module_init load s = (s', inl e) →
  (heap s' = heap s ∧
   (resolve_all load index_specifiers = inl e ∨
    ∃ siblings,
      resolve_all load index_specifiers = inr siblings ∧
      first_missing siblings index_requests = Some e)) ∨
  (∃ siblings i sibling,
     i < 4 ∧
     resolve_all load index_specifiers = inr siblings ∧
     first_missing siblings index_requests = None ∧
     siblings !! i = Some sibling ∧
     first_failure (take i siblings) (heap s) = None ∧
     (evaluate sibling (heap_after (take i siblings) (heap s))).2 = inl e ∧
     heap s' = heap_after (take (S i) siblings) (heap s)).
Proof.
  intros [Hstatic
         | (sibs & i & sib & Hres & Hmiss & Hi & Hok & Heval & Hheap)]%module_init_inl.
  - by left.
  - right. exists sibs, i, sib. split; [| done].
    destruct (resolve_all_lookup _ _ _ _ _ Hres Hi) as (p & Hp & _).
    by apply lookup_lt_Some in Hp.
Qed.

Lemma failed_init_runs_no_body_witness :
  module_init tangled_load empty_host
    = ((module_init tangled_load empty_host).1,
       inl (CannotResolve "./views/actionView")) ∧
  ((heap (module_init tangled_load empty_host).1 = heap empty_host ∧
    (resolve_all tangled_load index_specifiers
       = inl (CannotResolve "./views/actionView") ∨
     ∃ siblings,
       resolve_all tangled_load index_specifiers = inr siblings ∧
       first_missing siblings index_requests
         = Some (CannotResolve "./views/actionView"))) ∨
   (∃ siblings i sibling,
      i < 4 ∧
      resolve_all tangled_load index_specifiers = inr siblings ∧
      first_missing siblings index_requests = None ∧
      siblings !! i = Some sibling ∧
      first_failure (take i siblings) (heap empty_host) = None ∧
      (evaluate sibling (heap_after (take i siblings) (heap empty_host))).2
        = inl (CannotResolve "./views/actionView") ∧
      heap (module_init tangled_load empty_host).1
        = heap_after (take (S i) siblings) (heap empty_host))).
Proof.
  split; [vm_compute; reflexivity |].
  apply (failed_init_runs_no_body tangled_load empty_host
           (module_init tangled_load empty_host).1
           (CannotResolve "./views/actionView")).
  vm_compute. reflexivity.
Defined.

(** On the broken host the base model has run, and left its class, before
    the menu model threw; on the tangled host nothing has run. *)
Example failure_heaps :
  dom (heap (module_init broken_load empty_host).1) = {[ 1%positive ]} ∧
  heap (module_init tangled_load empty_host).1 = ∅ ∧
  heap (module_init nameless_load empty_host).1 = ∅.
Proof. repeat split; vm_compute; reflexivity. Qed.

(** ** Writing to [Actions] *)

Lemma own_keys_replace (k : string) (v : Value) (o : Obj) :
  own_keys (replace_property k v o) = own_keys o.
Proof.
  unfold own_keys. induction o as [| [k' v'] o IH]; cbn; [done |].
  destruct (decide (k = k')) as [-> | Hne]; cbn; [done | by rewrite IH].
Qed.

Lemma own_property_replace_eq (k : string) (v : Value) (o : Obj) :
  k ∈ own_keys o → own_property k (replace_property k v o) = Some v.
Proof.
  unfold own_keys. induction o as [| [k' v'] o IH]; cbn.
  - by intros ?%elem_of_nil.
  - intros Hin. destruct (decide (k = k')) as [-> | Hne]; cbn.
    + by rewrite decide_True.
    + rewrite decide_False by done. apply IH.
      by apply elem_of_cons in Hin as [? | ?].
Qed.

Lemma own_property_replace_ne (k k' : string) (v : Value) (o : Obj) :
  k' ≠ k → own_property k' (replace_property k v o) = own_property k' o.
Proof.
  intros Hne. induction o as [| [k0 v0] o IH]; cbn; [done |].
  destruct (decide (k = k0)) as [-> | Hk]; cbn.
  - by rewrite !decide_False.
  - by rewrite IH.
Qed.

Lemma own_property_insert_eq (n : N) (k : string) (v : Value) (o : Obj) :
  k ∉ own_keys o → own_property k (insert_indexed n k v o) = Some v.
Proof.
  unfold own_keys. induction o as [| [k' v'] o IH]; cbn.
  - intros _. by rewrite decide_True.
  - intros Hnin. apply not_elem_of_cons in Hnin as [Hne Hnin].
    destruct (array_index k') as [n' |]; [case_bool_decide |]; cbn;
      rewrite ?decide_True by done; try done.
    rewrite decide_False by done. by apply IH.
Qed.

Lemma own_property_insert_ne (n : N) (k k' : string) (v : Value) (o : Obj) :
  k' ≠ k → own_property k' (insert_indexed n k v o) = own_property k' o.
Proof.
  intros Hne. induction o as [| [k0 v0] o IH]; cbn.
  - by rewrite decide_False.
  - destruct (array_index k0) as [n' |]; [case_bool_decide |]; cbn;
      rewrite ?(decide_False (P := k' = k)) by done; try done.
    by rewrite IH.
Qed.

Lemma own_property_snoc_eq (k : string) (v : Value) (o : Obj) :
  k ∉ own_keys o → own_property k (o ++ [(k, v)])%list = Some v.
Proof.
  unfold own_keys. induction o as [| [k' v'] o IH]; cbn.
  - intros _. by rewrite decide_True.
  - intros [Hne Hnin]%not_elem_of_cons. rewrite decide_False by done.
    by apply IH.
Qed.

Lemma own_property_snoc_ne (k k' : string) (v : Value) (o : Obj) :
  k' ≠ k → own_property k' (o ++ [(k, v)])%list = own_property k' o.
Proof.
  intros Hne. induction o as [| [k0 v0] o IH]; cbn.
  - by rewrite decide_False.
  - by rewrite IH.
Qed.

(** After [k] is defined it reads as the value given, and every other key
    reads as before. *)
Lemma own_property_define_eq (k : string) (v : Value) (o : Obj) :
  own_property k (define_property k v o) = Some v.
Proof.
  unfold define_property. destruct (decide (k ∈ own_keys o)) as [Hin | Hnin].
  - by apply own_property_replace_eq.
  - destruct (array_index k) as [n |].
    + by apply own_property_insert_eq.
    + by apply own_property_snoc_eq.
Qed.

Lemma own_property_define_ne (k k' : string) (v : Value) (o : Obj) :
  k' ≠ k → own_property k' (define_property k v o) = own_property k' o.
Proof.
  intros Hne. unfold define_property.
  destruct (decide (k ∈ own_keys o)) as [Hin | Hnin].
  - by apply own_property_replace_ne.
  - destruct (array_index k) as [n |].
    + by apply own_property_insert_ne.
    + by apply own_property_snoc_ne.
Qed.

(** The keys of [Actions] after [k] is defined on it. *)
Lemma own_keys_define_Actions (k : string) (v a m av mv : Value) :
  own_keys (define_property k v (Actions a m av mv)) =
    if decide (k ∈ Actions_keys) then Actions_keys
    else
      match array_index k with
      | Some _ => k :: Actions_keys
      | None => (Actions_keys ++ [k])%list
      end.
Proof.
  unfold define_property.
  change (own_keys (Actions a m av mv)) with Actions_keys.
  destruct (decide (k ∈ Actions_keys)) as [Hin | Hnin].
  - by rewrite own_keys_replace.
  - by destruct (array_index k) as [n |].
Qed.

(** X6.  [Actions] is an ordinary object, so a consumer's assignment
    [Actions.k = v] goes through, for every key but [__proto__], which an
    inherited setter takes.  The assignment is local: afterwards [k] reads
    as [v] and every other property reads as before; one of the four keys
    keeps its place, a new key that is an array index is listed before the
    four, and any other new key after them; no other object in the heap is
    touched, so the classes [Actions] referred to are what they were. *)
Theorem write_to_Actions_is_local
    (s : Host) (l : loc) (a m av mv : Value) (k : string) (v : Value) :
  heap s !! l = Some (Actions a m av mv) →
  k ≠ "__proto__" →
  ∃ s1,
    set_property (VRef l) k v s = (s1, inr ()) ∧
    get_property (VRef l) k s1 = (s1, inr v) ∧
    (∀ k', k' ≠ k →
           (get_property (VRef l) k' s1).2 = (get_property (VRef l) k' s).2) ∧
    (get_keys (VRef l) s1).2 =
      inr (if decide (k ∈ Actions_keys) then Actions_keys
           else
             match array_index k with
             | Some _ => k :: Actions_keys
             | None => (Actions_keys ++ [k])%list
             end) ∧
    (∀ l', l' ≠ l → heap s1 !! l' = heap s !! l') ∧
    requested s1 = requested s.
Proof.
  intros Hl Hk. unfold set_property, get_property, get_keys, Obj in *.
  cbv beta iota. rewrite Hl. rewrite decide_False by done.
  eexists. split; [reflexivity |]. cbn [heap requested].
  rewrite !lookup_insert_eq.
  split; [by rewrite own_property_define_eq |].
  split; [intros k' Hne; cbn [snd]; by rewrite own_property_define_ne |].
  split; [cbn [snd]; by rewrite own_keys_define_Actions |].
  split; [intros l' Hne; by rewrite lookup_insert_ne | done].
Qed.

Lemma write_to_Actions_is_local_witness :
  heap marker_final !! 1%positive
    = Some (Actions (VString "ACTION_MARKER") (VString "MENUACTION_MARKER")
                    (VString "ACTIONVIEW_MARKER")
                    (VString "MENUACTIONVIEW_MARKER")) ∧
  "0" ≠ "__proto__" ∧
  ∃ s1,
    set_property (VRef 1%positive) "0" VNull marker_final = (s1, inr ()) ∧
    get_property (VRef 1%positive) "0" s1 = (s1, inr VNull) ∧
    (∀ k', k' ≠ "0" →
           (get_property (VRef 1%positive) k' s1).2
             = (get_property (VRef 1%positive) k' marker_final).2) ∧
    (get_keys (VRef 1%positive) s1).2 =
      inr (if decide ("0" ∈ Actions_keys) then Actions_keys
           else
             match array_index "0" with
             | Some _ => "0" :: Actions_keys
             | None => (Actions_keys ++ ["0"])%list
             end) ∧
    (∀ l', l' ≠ 1%positive → heap s1 !! l' = heap marker_final !! l') ∧
    requested s1 = requested marker_final.
Proof.
  split; [vm_compute; reflexivity |]. split; [discriminate |].
  apply (write_to_Actions_is_local marker_final 1%positive
           (VString "ACTION_MARKER") (VString "MENUACTION_MARKER")
           (VString "ACTIONVIEW_MARKER") (VString "MENUACTIONVIEW_MARKER")
           "0" VNull).
  - vm_compute. reflexivity.
  - discriminate.
Defined.

(** Three assignments on the marker host: to one of the four keys, to an
    array index, and to [__proto__], which leaves the own properties as
    they were. *)
Example write_runs :
  (get_keys (VRef 1%positive)
     (set_property (VRef 1%positive) "MenuAction" VNull marker_final).1).2
    = inr ["Action"; "ActionView"; "MenuAction"; "MenuActionView"] ∧
  (get_keys (VRef 1%positive)
     (set_property (VRef 1%positive) "0" VNull marker_final).1).2
    = inr ["0"; "Action"; "ActionView"; "MenuAction"; "MenuActionView"] ∧
  set_property (VRef 1%positive) "__proto__" VNull marker_final
    = (marker_final, inr ()).
Proof. repeat split; vm_compute; reflexivity. Qed.
